(** * reposcore/github_utils.py: repository-identifier check, token check,
      repository-existence check and rate-limit report over a retried GET.

    The Python module is embedded shallowly.  Functions that touch the
    outside world (environment, network, clock, logger, standard output)
    are computations over an explicit [World]; a computation either
    returns a value or raises a Python exception. *)

From Stdlib Require Import QArith.
From stdpp Require Import base option list strings gmap pretty.

Local Open Scope Z_scope.
Local Open Scope string_scope.
Local Set Warnings "-register-all".

(** ** Python values the module handles *)

(** Exceptions raised by a [requests] transport: all of them derive from
    [requests.exceptions.RequestException], hence from [Exception]. *)
Inductive TransportError :=
  | ConnectionError (msg : string)
  | Timeout (msg : string).

(** Exceptions that occur in this module.  [SystemExit] derives from
    [BaseException] only, the others from [Exception].  [ValueError] and
    [RecursionError] are what the JSON decoder raises for a text it
    refuses although it is JSON: an integer literal longer than the
    interpreter's digit limit, a nesting deeper than its stack. *)
Inductive PyExc :=
  | Transport (e : TransportError)
  | JSONDecodeError
  | ValueError (msg : string)
  | RecursionError (msg : string)
  | AttributeError (msg : string)
  | SystemExit (code : Z).

Definition is_Exception (e : PyExc) : bool :=
  match e with
  | SystemExit _ => false
  | _ => true
  end.

(** A decoded JSON document, as [json.loads] builds it: [dict] entries
    are kept in document order. *)
Inductive JValue :=
  | JNull
  | JBool (b : bool)
  | JInt (n : Z)
  | JFloat (q : Q)
  | JStr (s : string)
  | JArr (items : list JValue)
  | JObj (entries : list (string * JValue)).

(** [requests.Response]: the status code, what [response.json()] yields
    for the body ([None] when the call raises instead), and what it
    raises in that case. *)
Record Response := mkResponseRaising {
  status_code : Z;
  json_body : option JValue;
  json_failure : PyExc
}.

(** A response whose body, when it does not decode, is not JSON text:
    [response.json()] then raises [JSONDecodeError]. *)
Definition mkResponse (status : Z) (body : option JValue) : Response :=
  mkResponseRaising status body JSONDecodeError.

(** The arguments of one [session.get(url, params=..., headers=...)]. *)
Record Request := mkRequest {
  url : string;
  params : option (gmap string string);
  headers : option (gmap string string)
}.

Inductive Outcome :=
  | Responded (r : Response)
  | Failed (e : TransportError).

(** ** Logging and f-strings *)

Inductive Level := INFO | WARNING | ERROR.

(** An f-string is kept as its pieces: literal text and [str()] of an
    interpolated value. *)
Inductive Piece :=
  | Lit (s : string)
  | OfStr (s : string)
  | OfInt (n : Z)
  | OfExc (e : PyExc)
  | OfJson (v : JValue).

Record LogRecord := mkLog {
  level : Level;
  message : list Piece
}.

(** ** The world and the computations over it *)

Record World := mkWorld {
  environ : gmap string string;   (* os.environ *)
  sent : list Request;            (* every GET issued so far, oldest first *)
  slept : list Q;                 (* every time.sleep so far, in seconds *)
  logs : list LogRecord;          (* records handed to the module logger *)
  stdout : list string            (* lines printed *)
}.

Inductive Res (A : Type) :=
  | Ret (a : A)
  | Raise (e : PyExc).
Arguments Ret {A} a.
Arguments Raise {A} e.

Definition M (A : Type) : Type := World -> Res A * World.

Definition ret {A} (a : A) : M A := fun w => (Ret a, w).
Definition raise {A} (e : PyExc) : M A := fun w => (Raise e, w).

Definition bind {A B} (m : M A) (k : A -> M B) : M B :=
  fun w =>
    match m w with
    | (Ret a, w') => k a w'
    | (Raise e, w') => (Raise e, w')
    end.

(** [try: body except Exception as e: handler e]. *)
Definition try_except {A} (body : M A) (handler : PyExc -> M A) : M A :=
  fun w =>
    match body w with
    | (Ret a, w') => (Ret a, w')
    | (Raise e, w') => if is_Exception e then handler e w' else (Raise e, w')
    end.

Notation "'do' x <- m ; k" := (bind m (fun x => k))
  (at level 10, x name, m at level 100, k at level 200).

Definition getenv (name : string) : M (option string) :=
  fun w => (Ret (environ w !! name), w).

Definition printed (line : string) (w : World) : World :=
  mkWorld (environ w) (sent w) (slept w) (logs w) (stdout w ++ [line]).

Definition logged (r : LogRecord) (w : World) : World :=
  mkWorld (environ w) (sent w) (slept w) (logs w ++ [r]) (stdout w).

Definition waited (seconds : Q) (w : World) : World :=
  mkWorld (environ w) (sent w) (slept w ++ [seconds]) (logs w) (stdout w).

Definition requested (req : Request) (w : World) : World :=
  mkWorld (environ w) (sent w ++ [req]) (slept w) (logs w) (stdout w).

Definition print (line : string) : M unit :=
  fun w => (Ret tt, printed line w).

(** [logger.info], [logger.warning], [logger.error]. *)
Definition log (lv : Level) (msg : list Piece) : M unit :=
  fun w => (Ret tt, logged (mkLog lv msg) w).

(** [time.sleep]. *)
Definition sleep (seconds : Q) : M unit :=
  fun w => (Ret tt, waited seconds w).

(** [sys.exit(code)] raises [SystemExit(code)]; uncaught, it ends the
    process with that status. *)
Definition sys_exit {A} (code : Z) : M A := raise (SystemExit code).

(** ** The fragment of [re] the module uses *)

Module Re.

(** Characters of a Python [str] are Unicode code points. *)
Definition char := N.

Inductive item :=
  | Bol                              (* ^ *)
  | Eol                              (* $ *)
  | Chr (c : char)                   (* a literal character *)
  | PlusSet (cls : char -> bool).    (* [...]+ , greedy *)

Definition newline : char := 10%N.

(** [$] holds at the end of the string and just before a final newline. *)
Definition at_eol (s : list char) : bool :=
  match s with
  | [] => true
  | [c] => (c =? newline)%N
  | _ => false
  end.

(** [matches items start s]: the items match all of [s], where [start]
    tells whether [s] begins at position 0 of the subject. *)
Fixpoint matches (items : list item) (start : bool) (s : list char)
    {struct items} : bool :=
  match items with
  | [] => match s with [] => true | _ => false end
  | Bol :: rest => start && matches rest start s
  | Eol :: rest => at_eol s && matches rest start s
  | Chr c :: rest =>
      match s with
      | x :: s' => (x =? c)%N && matches rest false s'
      | [] => false
      end
  | PlusSet cls :: rest =>
      (fix more (s : list char) : bool :=
         match s with
         | [] => false
         | x :: s' => cls x && (more s' || matches rest false s')
         end) s
  end.

Definition fullmatch (pattern : list item) (s : list char) : bool :=
  matches pattern true s.

End Re.

Section RepoFormat.

(** [str.isalnum] on one code point: the interpreter's Unicode table. *)
Variable unicode_isalnum : N -> bool.

Definition ascii_isalnum (c : N) : bool :=
  ((48 <=? c) && (c <=? 57) || (65 <=? c) && (c <=? 90)
   || (97 <=? c) && (c <=? 122))%N.

(** [\w] on a [str] pattern: alphanumeric or underscore. *)
Definition word (c : N) : bool := unicode_isalnum c || (c =? 95)%N.

(** The class [[\w\-]]. *)
Definition word_or_hyphen (c : N) : bool := word c || (c =? 45)%N.

Definition slash : N := 47%N.

(** r'^[\w\-]+/[\w\-]+$' *)
Definition pattern : list Re.item :=
  [Re.Bol; Re.PlusSet word_or_hyphen; Re.Chr slash;
   Re.PlusSet word_or_hyphen; Re.Eol].

Definition format_message : string :=
  "저장소 형식이 올바르지 않습니다. 'owner/repo' 형식으로 입력해주세요.".

Definition validate_repo_format (repo : list N) : M bool :=
  if Re.fullmatch pattern repo then ret true
  else do _ <- print format_message; ret false.

End RepoFormat.

(** ** The network and the retried GET *)

Section Network.

(** The network: what the [n]-th GET of the run (counting from 0)
    yields for the request it carries. *)
Variable transport : nat -> Request -> Outcome.

(** [session.get(url, params=params, headers=headers)] on a
    [requests.Session()]. *)
Definition session_get (url : string) (params headers : option (gmap string string))
    : M Response :=
  fun w =>
    let req := mkRequest url params headers in
    match transport (length (sent w)) req with
    | Responded r => (Ret r, requested req w)
    | Failed e => (Raise (Transport e), requested req w)
    end.

(** Modelled from the spec: the [retry] decorator of
    [reposcore/retry_decorator.py], which is not among the sources.
    "Attempt the GET. If the attempt raises a transport-level error, wait
    for delay time-units, then retry, up to max_attempts total attempts
    (including the first)"; "returns the Response object from whichever
    attempt completed without raising"; "if every attempt raises, re-raise
    the last captured error".  [retries_left] counts the attempts still
    allowed after the current one. *)
Fixpoint retry_from {A} (retries_left : nat) (retry_delay : Q) (func : M A)
    : M A :=
  fun w =>
    match func w with
    | (Ret a, w') => (Ret a, w')
    | (Raise e, w') =>
        match e, retries_left with
        | Transport _, S n =>
            (do _ <- sleep retry_delay; retry_from n retry_delay func) w'
        | _, _ => (Raise e, w')
        end
    end.

(** Modelled from the spec: [@retry(max_retries=..., retry_delay=...)].
    [max_retries] is the attempt budget, the first attempt included, as
    in the spec's scenario of a transport failing "on all 3 attempts". *)
Definition retry {A} (max_retries : positive) (retry_delay : Q) (func : M A)
    : M A :=
  retry_from (Pos.to_nat max_retries - 1)%nat retry_delay func.

Definition retry_request (url : string)
    (params headers : option (gmap string string)) : M Response :=
  retry 3 1%Q (session_get url params headers).

(** ** The callers *)

(** The headers every function starts from. *)
Definition default_headers : gmap string string :=
  <["User-Agent" := "reposcore-py"]>
    (<["Accept" := "application/vnd.github+json"]> ∅).

(** [if token: headers["Authorization"] = f"token {token}"]: [None] and
    the empty string are falsy. *)
Definition with_token (token : option string) (headers : gmap string string)
    : gmap string string :=
  match token with
  | None | Some EmptyString => headers
  | Some t => <["Authorization" := "token " +:+ t]> headers
  end.

Definition validate_token : M unit :=
  do token <- getenv "GITHUB_TOKEN";
  let headers := with_token token default_headers in
  do response <-
    try_except
      (retry_request "https://api.github.com/user" None (Some headers))
      (fun e =>
         do _ <- log ERROR [Lit "❌ 인증 API 요청 자체가 실패했습니다: "; OfExc e];
         sys_exit 1);
  if negb (status_code response =? 200)%Z then
    do _ <- log ERROR
      [Lit "❌ 인증 실패: 잘못된 GitHub 토큰입니다. 토큰 값을 확인해 주세요."];
    sys_exit 1
  else ret tt.

(** The [except] branch returns from the function: the [try] statement
    yields [None] for it and the response otherwise. *)
Definition check_github_repo_exists (repo : string) : M bool :=
  do token <- getenv "GITHUB_TOKEN";
  let url := "https://api.github.com/repos/" +:+ repo in
  let headers := with_token token default_headers in
  do got <-
    try_except
      (do response <- retry_request url None (Some headers);
       ret (Some response))
      (fun e =>
         do _ <- log WARNING
           [Lit "⚠️ 저장소 존재 확인 API 요청 자체가 실패했습니다: "; OfExc e];
         ret None);
  match got with
  | None => ret false
  | Some response =>
      if (status_code response =? 200)%Z then ret true
      else
        do _ <-
          (if (status_code response =? 403)%Z then
             do _ <- log WARNING
               [Lit "⚠️ GitHub API 요청 실패: 403 (요청 횟수 초과 또는 인증 오류)"];
             log INFO
               [Lit "ℹ️ 해결 방법: --token 옵션 또는 GITHUB_TOKEN 환경 변수 사용"]
           else if (status_code response =? 404)%Z then
             log WARNING
               [Lit "⚠️ 저장소 '"; OfStr repo; Lit "'가 존재하지 않습니다."]
           else
             log WARNING
               [Lit "⚠️ 요청 실패: HTTP 상태 코드 ";
                OfInt (status_code response)]);
        ret false
  end.

(** [response.json()]: the decoded body, or whatever the decoder
    raises. *)
Definition response_json (response : Response) : M JValue :=
  match json_body response with
  | Some v => ret v
  | None => raise (json_failure response)
  end.

Definition type_name (v : JValue) : string :=
  match v with
  | JNull => "NoneType"
  | JBool _ => "bool"
  | JInt _ => "int"
  | JFloat _ => "float"
  | JStr _ => "str"
  | JArr _ => "list"
  | JObj _ => "dict"
  end.

(** [dict.get(key, default)] on the entries of a decoded object: a later
    entry for the same key overrides an earlier one. *)
Definition dict_get (entries : list (string * JValue)) (key : string)
    (default : JValue) : JValue :=
  fold_left (fun found kv => if String.eqb (fst kv) key then snd kv else found)
            entries default.

(** [v.get(key, default)]: only a [dict] has the method. *)
Definition py_get (v : JValue) (key : string) (default : JValue) : M JValue :=
  match v with
  | JObj entries => ret (dict_get entries key default)
  | _ => raise (AttributeError
                  ("'" +:+ type_name v +:+ "' object has no attribute 'get'"))
  end.

Definition check_rate_limit : M unit :=
  do token <- getenv "GITHUB_TOKEN";
  let headers := with_token token default_headers in
  do got <-
    try_except
      (do response <-
         retry_request "https://api.github.com/rate_limit" None (Some headers);
       ret (Some response))
      (fun e =>
         do _ <- log ERROR
           [Lit "API 요청 제한 정보를 가져오는데 실패했습니다: "; OfExc e];
         ret None);
  match got with
  | None => ret tt
  | Some response =>
      if (status_code response =? 200)%Z then
        do data <- response_json response;
        do resources <- py_get data "resources" (JObj []);
        do core <- py_get resources "core" (JObj []);
        do remaining <- py_get core "remaining" (JStr "N/A");
        do limit <- py_get core "limit" (JStr "N/A");
        log INFO [Lit "GitHub API 요청 가능 횟수: "; OfJson remaining;
                  Lit " / "; OfJson limit]
      else
        log ERROR
          [Lit "API 요청 제한 정보를 가져오는데 실패했습니다 (status code: ";
           OfInt (status_code response); Lit ")."]
  end.

End Network.

(** * Properties *)

(** ** The retry loop *)

(** The world after [k] failed attempts, each followed by a delay, and one
    more attempt. *)
Definition attempts_made (k : nat) (delay : Q) (req : Request) (w : World)
    : World :=
  mkWorld (environ w) (sent w ++ replicate (S k) req)
          (slept w ++ replicate k delay) (logs w) (stdout w).

Section RetryFacts.

Variable transport : nat -> Request -> Outcome.
Variables (url : string) (params headers : option (gmap string string)).

Let req := mkRequest url params headers.
Let get := session_get transport url params headers.

Lemma attempts_made_0 delay w :
  attempts_made 0 delay req w = requested req w.
Proof.
  unfold attempts_made, requested. simpl. by rewrite app_nil_r.
Qed.

Lemma attempts_made_S k delay w :
  attempts_made k delay req (waited delay (requested req w))
  = attempts_made (S k) delay req w.
Proof.
  unfold attempts_made, waited, requested. simpl.
  by rewrite <- !app_assoc.
Qed.

(** Every run of the loop: some number [k] of failed attempts, each
    followed by one delay, then a last attempt whose outcome is the
    outcome of the loop. *)
Lemma retry_from_run n delay w :
  exists k, (k <= n)%nat /\
    snd (retry_from n delay get w) = attempts_made k delay req w /\
    (forall i, (i < k)%nat ->
       exists e, transport (length (sent w) + i)%nat req = Failed e) /\
    match fst (retry_from n delay get w) with
    | Ret r => transport (length (sent w) + k)%nat req = Responded r
    | Raise x =>
        k = n /\ exists e, x = Transport e /\
          transport (length (sent w) + k)%nat req = Failed e
    end.
Proof.
  revert w. induction n as [|n IH]; intros w.
  - exists 0%nat. simpl. unfold get, session_get. fold req.
    rewrite Nat.add_0_r.
    destruct (transport (length (sent w)) req) as [r|e] eqn:Ht; simpl;
      rewrite attempts_made_0; repeat split; eauto; intros; lia.
  - simpl. unfold get at 1 3, session_get. fold req. fold get.
    destruct (transport (length (sent w)) req) as [r|e] eqn:Ht; simpl.
    + exists 0%nat. rewrite attempts_made_0, Nat.add_0_r.
      repeat split; auto; intros; lia.
    + unfold bind, sleep.
      destruct (IH (waited delay (requested req w)))
        as (k & Hk & Hw & Hfail & Hlast).
      exists (S k).
      assert (Hlen : forall i, (length (sent (waited delay (requested req w))) + i
                    = length (sent w) + S i)%nat).
      { intros i. simpl. rewrite length_app. simpl. lia. }
      split; [lia|]. split; [by rewrite Hw, attempts_made_S|]. split.
      * intros [|i] Hi; [rewrite Nat.add_0_r; eauto|].
        rewrite <- Hlen. apply Hfail. lia.
      * destruct (fst (retry_from n delay get (waited delay (requested req w))))
          as [r|x]; rewrite <- Hlen; [done|].
        destruct Hlast as (-> & e' & -> & He'). eauto.
Qed.

(** [k] failures, then a response, within the budget. *)
Lemma retry_from_failures_then_response n delay w k r :
  (k <= n)%nat ->
  (forall i, (i < k)%nat ->
     exists e, transport (length (sent w) + i)%nat req = Failed e) ->
  transport (length (sent w) + k)%nat req = Responded r ->
  retry_from n delay get w = (Ret r, attempts_made k delay req w).
Proof.
  intros Hk Hfail Hok.
  destruct (retry_from_run n delay w) as (k' & Hk' & Hw & Hfail' & Hlast).
  assert (k' = k) as ->.
  { destruct (lt_eq_lt_dec k' k) as [[Hlt|Heq]|Hgt]; [exfalso|done|exfalso].
    - destruct (Hfail k' Hlt) as [e He].
      destruct (fst (retry_from n delay get w)); [congruence|].
      destruct Hlast as [-> _]. lia.
    - destruct (Hfail' k Hgt) as [e He]. congruence. }
  destruct (retry_from n delay get w) as [[r'|x] w']; simpl in *.
  - f_equal; congruence.
  - destruct Hlast as (_ & e & _ & He). congruence.
Qed.

(** Every attempt of the budget fails. *)
Lemma retry_from_exhausted n delay w (e : nat -> TransportError) :
  (forall i, (i <= n)%nat ->
     transport (length (sent w) + i)%nat req = Failed (e i)) ->
  retry_from n delay get w
  = (Raise (Transport (e n)), attempts_made n delay req w).
Proof.
  intros Hfail.
  destruct (retry_from_run n delay w) as (k & Hk & Hw & _ & Hlast).
  destruct (retry_from n delay get w) as [[r|x] w']; simpl in *.
  - rewrite Hfail in Hlast by done. discriminate.
  - destruct Hlast as (-> & e' & -> & He').
    rewrite Hfail in He' by done. congruence.
Qed.

End RetryFacts.

(** A world in which nothing has happened yet. *)
Definition fresh_world (env : gmap string string) : World :=
  mkWorld env [] [] [] [].

(** A transport that fails its first [n] requests and answers the rest
    with [r]. *)
Definition flaky (n : nat) (r : Response) : nat -> Request -> Outcome :=
  fun i _ =>
    if (i <? n)%nat then Failed (ConnectionError "connection reset")
    else Responded r.

(** C2: when the transport raises on exactly [k] attempts, [k] below the
    attempt budget, and then answers, the retried call returns that answer
    after exactly [k] delays and [k + 1] attempts; this holds for every
    policy, and for [retry_request] with its budget of 3.  When the first
    attempt answers, [retry_request] returns it with no delay at all. *)
Theorem retry_request_returns_after_k_failures
    (transport : nat -> Request -> Outcome) (url : string)
    (params headers : option (gmap string string)) (w : World)
    (k : nat) (r : Response) :
  let req := mkRequest url params headers in
  (forall i, (i < k)%nat ->
     exists e, transport (length (sent w) + i)%nat req = Failed e) ->
  transport (length (sent w) + k)%nat req = Responded r ->
  (forall max_attempts delay, (k < Pos.to_nat max_attempts)%nat ->
     retry max_attempts delay (session_get transport url params headers) w
     = (Ret r, attempts_made k delay req w))
  /\ ((k < 3)%nat ->
      retry_request transport url params headers w
      = (Ret r, attempts_made k 1 req w))
  /\ (k = 0%nat ->
      retry_request transport url params headers w = (Ret r, requested req w)
      /\ slept (requested req w) = slept w).
Proof.
  intros req Hfail Hok. subst req.
  assert (Hgen : forall max_attempts delay, (k < Pos.to_nat max_attempts)%nat ->
     retry max_attempts delay (session_get transport url params headers) w
     = (Ret r, attempts_made k delay (mkRequest url params headers) w)).
  { intros p delay Hk. unfold retry.
    apply retry_from_failures_then_response; [lia|done..]. }
  split; [exact Hgen|]. split.
  - intros Hk. apply (Hgen 3%positive 1%Q). simpl. lia.
  - intros ->. split; [|done].
    rewrite <- (attempts_made_0 url params headers 1 w).
    apply (Hgen 3%positive 1%Q). simpl. lia.
Qed.

Lemma retry_request_returns_after_k_failures_witness :
  let r := mkResponse 200 None in
  let req := mkRequest "https://api.github.com/user" None None in
  retry_request (flaky 2 r) "https://api.github.com/user" None None
                (fresh_world ∅)
  = (Ret r, attempts_made 2 1 req (fresh_world ∅))
  /\ retry_request (flaky 0 r) "https://api.github.com/user" None None
                   (fresh_world ∅)
     = (Ret r, requested req (fresh_world ∅)).
Proof.
  intros r req. split.
  - refine (proj1 (proj2 (retry_request_returns_after_k_failures
              (flaky 2 r) "https://api.github.com/user" None None
              (fresh_world ∅) 2 r _ _)) _).
    + intros [|[|i]] Hi; [eexists; reflexivity..|lia].
    + reflexivity.
    + lia.
  - refine (proj1 (proj2 (proj2 (retry_request_returns_after_k_failures
              (flaky 0 r) "https://api.github.com/user" None None
              (fresh_world ∅) 0 r _ _)) _)).
    + intros i Hi. lia.
    + reflexivity.
    + reflexivity.
Defined.

(** C3: when every attempt of the budget raises, the retried call raises
    the error of the last attempt, after exactly as many attempts as the
    budget allows and one delay between consecutive attempts; this holds
    for every policy, and for [retry_request] with its budget of 3. *)
Theorem retry_request_reraises_last_error
    (transport : nat -> Request -> Outcome) (url : string)
    (params headers : option (gmap string string)) (w : World)
    (e : nat -> TransportError) :
  let req := mkRequest url params headers in
  (forall max_attempts delay,
     (forall i, (i < Pos.to_nat max_attempts)%nat ->
        transport (length (sent w) + i)%nat req = Failed (e i)) ->
     retry max_attempts delay (session_get transport url params headers) w
     = (Raise (Transport (e (Pos.to_nat max_attempts - 1)%nat)),
        attempts_made (Pos.to_nat max_attempts - 1) delay req w))
  /\ ((forall i, (i < 3)%nat ->
         transport (length (sent w) + i)%nat req = Failed (e i)) ->
      retry_request transport url params headers w
      = (Raise (Transport (e 2%nat)), attempts_made 2 1 req w)
      /\ sent (attempts_made 2 1 req w) = (sent w ++ [req; req; req])%list).
Proof.
  intros req. subst req.
  assert (Hgen : forall max_attempts delay,
     (forall i, (i < Pos.to_nat max_attempts)%nat ->
        transport (length (sent w) + i)%nat (mkRequest url params headers)
        = Failed (e i)) ->
     retry max_attempts delay (session_get transport url params headers) w
     = (Raise (Transport (e (Pos.to_nat max_attempts - 1)%nat)),
        attempts_made (Pos.to_nat max_attempts - 1) delay
                      (mkRequest url params headers) w)).
  { intros p delay Hfail. unfold retry. apply retry_from_exhausted.
    intros i Hi. apply Hfail. pose proof (Pos2Nat.is_pos p). lia. }
  split; [exact Hgen|].
  intros Hfail. split; [|done]. exact (Hgen 3%positive 1%Q Hfail).
Qed.

Lemma retry_request_reraises_last_error_witness :
  let req := mkRequest "https://api.github.com/user" None None in
  let net : nat -> Request -> Outcome :=
    fun i _ => Failed (ConnectionError (pretty i)) in
  retry_request net "https://api.github.com/user" None None (fresh_world ∅)
  = (Raise (Transport (ConnectionError "2")),
     attempts_made 2 1 req (fresh_world ∅)).
Proof.
  intros req net.
  refine (proj1 (proj2 (retry_request_reraises_last_error
            net "https://api.github.com/user" None None (fresh_world ∅)
            (fun i => ConnectionError (pretty i))) _)).
  intros i Hi. reflexivity.
Defined.

(** C4: a response the transport produces is returned as it is, whatever
    its status code.  When an attempt within the budget answers, the
    attempts before it having raised, [retry_request] returns exactly that
    response, makes no further attempt and raises nothing; in particular
    when the first attempt answers it returns after this single attempt.
    Every response [retry_request] returns is the transport's answer to
    its last attempt, every attempt that was followed by another one had
    raised, and [retry_request] raises only when all three attempts
    raised, the error being the transport's own from the last attempt. *)
Theorem retry_request_returns_response_as_is
    (transport : nat -> Request -> Outcome) (url : string)
    (params headers : option (gmap string string)) (w : World) :
  let req := mkRequest url params headers in
  let run := retry_request transport url params headers w in
  (forall k r, (k < 3)%nat ->
     (forall i, (i < k)%nat ->
        exists e, transport (length (sent w) + i)%nat req = Failed e) ->
     transport (length (sent w) + k)%nat req = Responded r ->
     run = (Ret r, attempts_made k 1 req w))
  /\ (forall r, transport (length (sent w)) req = Responded r ->
     run = (Ret r, requested req w))
  /\ (exists k,
        snd run = attempts_made k 1 req w /\
        (forall i, (i < k)%nat ->
           exists e, transport (length (sent w) + i)%nat req = Failed e) /\
        (forall r, fst run = Ret r ->
           transport (length (sent w) + k)%nat req = Responded r))
  /\ (forall x, fst run = Raise x ->
        (forall i, (i < 3)%nat ->
           exists e, transport (length (sent w) + i)%nat req = Failed e) /\
        exists e, x = Transport e /\
          transport (length (sent w) + 2)%nat req = Failed e).
Proof.
  intros req run. subst req run.
  assert (Hany : forall k r, (k < 3)%nat ->
     (forall i, (i < k)%nat ->
        exists e, transport (length (sent w) + i)%nat
                    (mkRequest url params headers) = Failed e) ->
     transport (length (sent w) + k)%nat (mkRequest url params headers)
     = Responded r ->
     retry_request transport url params headers w
     = (Ret r, attempts_made k 1 (mkRequest url params headers) w)).
  { intros k r Hk Hfail Hr. unfold retry_request, retry.
    apply retry_from_failures_then_response; [simpl; lia|done..]. }
  split; [exact Hany|]. split; [|split].
  - intros r Hr.
    rewrite <- (attempts_made_0 url params headers 1 w).
    apply Hany; [lia|intros; lia|]. by rewrite Nat.add_0_r.
  - unfold retry_request, retry.
    destruct (retry_from_run transport url params headers
                (Pos.to_nat 3 - 1) 1 w) as (k & _ & Hw & Hfail & Hlast).
    exists k. split; [done|]. split; [done|].
    intros r Hr. by rewrite Hr in Hlast.
  - unfold retry_request, retry.
    destruct (retry_from_run transport url params headers
                (Pos.to_nat 3 - 1) 1 w) as (k & _ & _ & Hfail & Hlast).
    intros x Hx. rewrite Hx in Hlast.
    destruct Hlast as (-> & e & -> & He). simpl in He, Hfail.
    split; [|eauto].
    intros i Hi. destruct (decide (i = 2%nat)) as [->|Hne]; [eauto|].
    apply Hfail. lia.
Qed.

Lemma retry_request_returns_response_as_is_witness :
  let r := mkResponse 404 None in
  let req := mkRequest "https://api.github.com/repos/a/b" None None in
  retry_request (flaky 0 r) "https://api.github.com/repos/a/b" None None
                (fresh_world ∅)
  = (Ret r, requested req (fresh_world ∅))
  /\ retry_request (flaky 1 r) "https://api.github.com/repos/a/b" None None
                   (fresh_world ∅)
     = (Ret r, attempts_made 1 1 req (fresh_world ∅)).
Proof.
  intros r req. split.
  - refine (proj1 (proj2 (retry_request_returns_response_as_is
              (flaky 0 r) "https://api.github.com/repos/a/b" None None
              (fresh_world ∅))) r _).
    reflexivity.
  - refine (proj1 (retry_request_returns_response_as_is
              (flaky 1 r) "https://api.github.com/repos/a/b" None None
              (fresh_world ∅)) 1%nat r _ _ _).
    + lia.
    + intros [|i] Hi; [eexists; reflexivity|lia].
    + reflexivity.
Defined.

(** C6: the retried call invokes the transport at least once and at most
    [max_attempts] times in all, for every policy; [retry_request], whose
    decorator says [max_retries=3], makes at most 3 attempts, and exactly 3
    when every attempt fails.  The loop is a total function, so it ends
    within that budget. *)
Theorem retry_request_attempts_bounded
    (transport : nat -> Request -> Outcome) (url : string)
    (params headers : option (gmap string string)) (w : World) :
  let req := mkRequest url params headers in
  (forall max_attempts delay, exists n,
     (1 <= n <= Pos.to_nat max_attempts)%nat /\
     sent (snd (retry max_attempts delay
                  (session_get transport url params headers) w))
     = (sent w ++ replicate n req)%list)
  /\ (exists n,
        (1 <= n <= 3)%nat /\
        sent (snd (retry_request transport url params headers w))
        = (sent w ++ replicate n req)%list)
  /\ (forall e,
        sent (snd (retry_request (fun _ _ => Failed e) url params headers w))
        = (sent w ++ replicate 3 req)%list).
Proof.
  intros req. subst req.
  assert (Hgen : forall max_attempts delay, exists n,
     (1 <= n <= Pos.to_nat max_attempts)%nat /\
     sent (snd (retry max_attempts delay
                  (session_get transport url params headers) w))
     = (sent w ++ replicate n (mkRequest url params headers))%list).
  { intros p delay. unfold retry.
    destruct (retry_from_run transport url params headers
                (Pos.to_nat p - 1) delay w) as (k & Hk & Hw & _).
    exists (S k). rewrite Hw. split; [|done].
    pose proof (Pos2Nat.is_pos p). lia. }
  split; [exact Hgen|]. split; [exact (Hgen 3%positive 1%Q)|].
  intros e. unfold retry_request, retry.
  by rewrite (retry_from_exhausted _ url params headers _ 1 w (fun _ => e)).
Qed.

(** C7: every delay the retry loop inserts is the policy's [delay], one
    after each attempt that is followed by another, whatever the attempt
    index; for [retry_request] each delay is 1 second. *)
Theorem retry_request_delay_constant
    (transport : nat -> Request -> Outcome) (url : string)
    (params headers : option (gmap string string)) (w : World) :
  let req := mkRequest url params headers in
  (forall max_attempts delay, exists k,
     let w' := snd (retry max_attempts delay
                      (session_get transport url params headers) w) in
     slept w' = (slept w ++ replicate k delay)%list /\
     sent w' = (sent w ++ replicate (S k) req)%list)
  /\ (exists k,
        let w' := snd (retry_request transport url params headers w) in
        slept w' = (slept w ++ replicate k 1%Q)%list /\
        sent w' = (sent w ++ replicate (S k) req)%list).
Proof.
  intros req. subst req.
  assert (Hgen : forall max_attempts delay, exists k,
     let w' := snd (retry max_attempts delay
                      (session_get transport url params headers) w) in
     slept w' = (slept w ++ replicate k delay)%list /\
     sent w' = (sent w ++ replicate (S k) (mkRequest url params headers))%list).
  { intros p delay. unfold retry.
    destruct (retry_from_run transport url params headers
                (Pos.to_nat p - 1) delay w) as (k & _ & Hw & _).
    exists k. simpl. by rewrite Hw. }
  split; [exact Hgen|exact (Hgen 3%positive 1%Q)].
Qed.

(** ** The callers *)

(** [retry_request] raises nothing but the transport's own errors. *)
Lemma retry_request_raises_transport
    (transport : nat -> Request -> Outcome) (url : string)
    (params headers : option (gmap string string)) (w w' : World) (x : PyExc) :
  retry_request transport url params headers w = (Raise x, w') ->
  exists e, x = Transport e.
Proof.
  intros Hrun. unfold retry_request, retry in Hrun.
  destruct (retry_from_run transport url params headers
              (Pos.to_nat 3 - 1) 1 w) as (k & _ & _ & _ & Hlast).
  rewrite Hrun in Hlast. simpl in Hlast.
  destruct Hlast as (_ & e & -> & _). eauto.
Qed.

(** The headers argument the three callers build in world [w]. *)
Definition headers_in (w : World) : option (gmap string string) :=
  Some (with_token (environ w !! "GITHUB_TOKEN") default_headers).

Definition repo_url (repo : string) : string :=
  "https://api.github.com/repos/" +:+ repo.

(** C1: for every repository identifier, [check_github_repo_exists]
    returns [True] when the retried GET completes with status 200; returns
    [False] after logging a warning that names the repository when it
    completes with status 404; and, when the transport raises on all 3
    attempts, catches the error, logs a warning and returns [False]
    instead of raising. *)
Theorem check_github_repo_exists_scenarios
    (transport : nat -> Request -> Outcome) (repo : string) (w : World) :
  let req := mkRequest (repo_url repo) None (headers_in w) in
  let run := retry_request transport (repo_url repo) None (headers_in w) w in
  (forall r w', run = (Ret r, w') -> status_code r = 200 ->
     check_github_repo_exists transport repo w = (Ret true, w'))
  /\ (forall r w', run = (Ret r, w') -> status_code r = 404 ->
     check_github_repo_exists transport repo w
     = (Ret false,
        logged (mkLog WARNING
                  [Lit "⚠️ 저장소 '"; OfStr repo; Lit "'가 존재하지 않습니다."])
               w'))
  /\ (forall e : nat -> TransportError,
     (forall i, (i < 3)%nat ->
        transport (length (sent w) + i)%nat req = Failed (e i)) ->
     check_github_repo_exists transport repo w
     = (Ret false,
        logged (mkLog WARNING
                  [Lit "⚠️ 저장소 존재 확인 API 요청 자체가 실패했습니다: ";
                   OfExc (Transport (e 2%nat))])
               (attempts_made 2 1 req w))).
Proof.
  intros req run. subst req run.
  unfold check_github_repo_exists, bind, getenv, try_except.
  fold (repo_url repo). fold (headers_in w).
  split; [|split].
  - intros r w' -> Hs. simpl. by rewrite Hs.
  - intros r w' -> Hs. simpl. by rewrite Hs.
  - intros e Hfail.
    assert (Hrun : retry_request transport (repo_url repo) None (headers_in w) w
              = (Raise (Transport (e 2%nat)),
                 attempts_made 2 1 (mkRequest (repo_url repo) None (headers_in w)) w)).
    { unfold retry_request, retry. apply retry_from_exhausted.
      intros i Hi. apply Hfail. simpl in Hi. lia. }
    by rewrite Hrun.
Qed.

Lemma check_github_repo_exists_scenarios_witness :
  check_github_repo_exists (flaky 0 (mkResponse 200 None))
                           "octocat/Hello-World" (fresh_world ∅)
  = (Ret true,
     requested (mkRequest (repo_url "octocat/Hello-World") None
                          (headers_in (fresh_world ∅)))
               (fresh_world ∅))
  /\ fst (check_github_repo_exists (flaky 0 (mkResponse 404 None))
                                   "octocat/Hello-World" (fresh_world ∅))
     = Ret false
  /\ fst (check_github_repo_exists (fun _ _ => Failed (ConnectionError "refused"))
                                   "octocat/Hello-World" (fresh_world ∅))
     = Ret false.
Proof.
  split; [|split].
  - refine (proj1 (check_github_repo_exists_scenarios
              (flaky 0 (mkResponse 200 None)) "octocat/Hello-World"
              (fresh_world ∅)) (mkResponse 200 None) _ _ _);
      reflexivity.
  - rewrite (proj1 (proj2 (check_github_repo_exists_scenarios
              (flaky 0 (mkResponse 404 None)) "octocat/Hello-World"
              (fresh_world ∅))) (mkResponse 404 None) _ eq_refl eq_refl).
    reflexivity.
  - rewrite (proj2 (proj2 (check_github_repo_exists_scenarios
              (fun _ _ => Failed (ConnectionError "refused"))
              "octocat/Hello-World" (fresh_world ∅)))
              (fun _ => ConnectionError "refused") (fun _ _ => eq_refl)).
    reflexivity.
Defined.

Definition user_url : string := "https://api.github.com/user".

(** C5: [validate_token] returns normally when the retried GET to
    https://api.github.com/user completes with status 200; when it
    completes with any other status, or raises after its attempts are
    used up, [validate_token] logs an error and leaves through
    [sys.exit(1)], a non-zero exit status. *)
Theorem validate_token_exits_nonzero
    (transport : nat -> Request -> Outcome) (w : World) :
  let run := retry_request transport user_url None (headers_in w) w in
  (forall r w', run = (Ret r, w') -> status_code r = 200 ->
     validate_token transport w = (Ret tt, w'))
  /\ (forall r w', run = (Ret r, w') -> status_code r <> 200 ->
     exists code, code <> 0 /\
       validate_token transport w
       = (Raise (SystemExit code),
          logged (mkLog ERROR
                    [Lit "❌ 인증 실패: 잘못된 GitHub 토큰입니다. 토큰 값을 확인해 주세요."])
                 w'))
  /\ (forall x w', run = (Raise x, w') ->
     exists code, code <> 0 /\
       validate_token transport w
       = (Raise (SystemExit code),
          logged (mkLog ERROR
                    [Lit "❌ 인증 API 요청 자체가 실패했습니다: "; OfExc x])
                 w')).
Proof.
  intros run. subst run.
  unfold validate_token, bind, getenv, try_except.
  fold user_url. fold (headers_in w).
  split; [|split].
  - intros r w' -> Hs. simpl. by rewrite Hs.
  - intros r w' -> Hs. simpl. exists 1. split; [done|].
    destruct (Z.eqb_spec (status_code r) 200); [done|]. reflexivity.
  - intros x w' Hrun. exists 1. split; [done|].
    destruct (retry_request_raises_transport _ _ _ _ _ _ _ Hrun) as [e ->].
    by rewrite Hrun.
Qed.

Lemma validate_token_exits_nonzero_witness :
  validate_token (flaky 0 (mkResponse 200 None)) (fresh_world ∅)
  = (Ret tt,
     requested (mkRequest user_url None (headers_in (fresh_world ∅)))
               (fresh_world ∅))
  /\ (exists code, code <> 0 /\
        fst (validate_token (flaky 0 (mkResponse 401 None)) (fresh_world ∅))
        = Raise (SystemExit code))
  /\ (exists code, code <> 0 /\
        fst (validate_token (flaky 3 (mkResponse 200 None)) (fresh_world ∅))
        = Raise (SystemExit code)).
Proof.
  split; [|split].
  - refine (proj1 (validate_token_exits_nonzero
              (flaky 0 (mkResponse 200 None)) (fresh_world ∅))
              (mkResponse 200 None) _ _ _); reflexivity.
  - destruct (proj1 (proj2 (validate_token_exits_nonzero
              (flaky 0 (mkResponse 401 None)) (fresh_world ∅)))
              (mkResponse 401 None) _ eq_refl) as (code & Hcode & Hrun).
    + simpl. lia.
    + exists code. split; [exact Hcode|]. rewrite Hrun. reflexivity.
  - destruct (proj2 (proj2 (validate_token_exits_nonzero
              (flaky 3 (mkResponse 200 None)) (fresh_world ∅)))
              (Transport (ConnectionError "connection reset")) _ eq_refl)
      as (code & Hcode & Hrun).
    exists code. split; [exact Hcode|]. rewrite Hrun. reflexivity.
Defined.

(** ** The headers of the requests *)

Definition rate_limit_url : string := "https://api.github.com/rate_limit".

(** The requests issued between world [w] and the later world [w']. *)
Definition issued (w w' : World) : list Request :=
  drop (length (sent w)) (sent w').

(** The [Authorization] header that goes with an environment: none when
    [GITHUB_TOKEN] is absent or empty. *)
Definition authorization_for (env : gmap string string) : option string :=
  match env !! "GITHUB_TOKEN" with
  | None | Some EmptyString => None
  | Some t => Some ("token " +:+ t)
  end.

Definition github_request (env : gmap string string) (req : Request) : Prop :=
  exists hs,
    headers req = Some hs /\
    hs !! "Accept" = Some "application/vnd.github+json" /\
    hs !! "User-Agent" = Some "reposcore-py" /\
    hs !! "Authorization" = authorization_for env.

Lemma with_token_accept token :
  with_token token default_headers !! "Accept"
  = Some "application/vnd.github+json".
Proof. by destruct token as [[|a t]|]. Qed.

Lemma with_token_user_agent token :
  with_token token default_headers !! "User-Agent" = Some "reposcore-py".
Proof. by destruct token as [[|a t]|]. Qed.

Lemma with_token_authorization (env : gmap string string) :
  with_token (env !! "GITHUB_TOKEN") default_headers !! "Authorization"
  = authorization_for env.
Proof.
  unfold authorization_for.
  destruct (env !! "GITHUB_TOKEN") as [[|a t]|]; simpl; [done| |done].
  apply lookup_insert_eq.
Qed.

Lemma headers_in_github_request (w : World) (u : string) :
  github_request (environ w) (mkRequest u None (headers_in w)).
Proof.
  eexists. split; [reflexivity|].
  auto using with_token_accept, with_token_user_agent, with_token_authorization.
Qed.

(** What [retry_request] issues is its one request, at least once. *)
Lemma retry_request_issued
    (transport : nat -> Request -> Outcome) (u : string)
    (ps hs : option (gmap string string)) (w : World) :
  exists k,
    issued w (snd (retry_request transport u ps hs w))
    = replicate (S k) (mkRequest u ps hs).
Proof.
  unfold retry_request, retry, issued.
  destruct (retry_from_run transport u ps hs (Pos.to_nat 3 - 1) 1 w)
    as (k & _ & Hw & _).
  exists k. rewrite Hw. simpl sent. by rewrite drop_app_length.
Qed.

(** After the retried GET the three callers only log, return or exit. *)
Lemma validate_token_sent (transport : nat -> Request -> Outcome) (w : World) :
  sent (snd (validate_token transport w))
  = sent (snd (retry_request transport user_url None (headers_in w) w)).
Proof.
  unfold validate_token, bind, getenv, try_except.
  fold user_url. fold (headers_in w).
  destruct (retry_request transport user_url None (headers_in w) w)
    as [[r|x] w']; simpl.
  - by destruct (status_code r =? 200)%Z.
  - by destruct (is_Exception x).
Qed.

Lemma check_github_repo_exists_sent
    (transport : nat -> Request -> Outcome) (repo : string) (w : World) :
  sent (snd (check_github_repo_exists transport repo w))
  = sent (snd (retry_request transport (repo_url repo) None (headers_in w) w)).
Proof.
  unfold check_github_repo_exists, bind, getenv, try_except.
  fold (repo_url repo). fold (headers_in w).
  destruct (retry_request transport (repo_url repo) None (headers_in w) w)
    as [[r|x] w']; simpl.
  - destruct (status_code r =? 200)%Z; [done|].
    destruct (status_code r =? 403)%Z; [done|].
    by destruct (status_code r =? 404)%Z.
  - by destruct (is_Exception x).
Qed.

Lemma check_rate_limit_sent (transport : nat -> Request -> Outcome) (w : World) :
  sent (snd (check_rate_limit transport w))
  = sent (snd (retry_request transport rate_limit_url None (headers_in w) w)).
Proof.
  unfold check_rate_limit, bind, getenv, try_except.
  fold rate_limit_url. fold (headers_in w).
  destruct (retry_request transport rate_limit_url None (headers_in w) w)
    as [[r|x] w']; simpl.
  - destruct (status_code r =? 200)%Z; [|done].
    unfold response_json. destruct (json_body r) as [data|]; [|done].
    destruct data as [| | | | | |entries]; try done. simpl.
    destruct (dict_get entries "resources" (JObj [])) as [| | | | | |res];
      try done. simpl.
    by destruct (dict_get res "core" (JObj [])) as [| | | | | |core].
  - by destruct (is_Exception x).
Qed.

(** C8, as amended: every GET that [validate_token],
    [check_github_repo_exists] and [check_rate_limit] issue goes to the
    function's URL and carries [Accept: application/vnd.github+json] and
    [User-Agent: reposcore-py]; it carries [Authorization: token <value>]
    exactly when [GITHUB_TOKEN] is set to a non-empty value, and no
    [Authorization] header when the variable is absent or empty.  Each
    function issues at least one such GET. *)
Theorem requests_carry_github_headers
    (transport : nat -> Request -> Outcome) (repo : string) (w : World)
    (req : Request) :
  (req ∈ issued w (snd (validate_token transport w)) ->
     url req = user_url /\ github_request (environ w) req)
  /\ (req ∈ issued w (snd (check_github_repo_exists transport repo w)) ->
     url req = repo_url repo /\ github_request (environ w) req)
  /\ (req ∈ issued w (snd (check_rate_limit transport w)) ->
     url req = rate_limit_url /\ github_request (environ w) req)
  /\ issued w (snd (validate_token transport w)) <> []
  /\ issued w (snd (check_github_repo_exists transport repo w)) <> []
  /\ issued w (snd (check_rate_limit transport w)) <> [].
Proof.
  unfold issued.
  rewrite validate_token_sent, check_github_repo_exists_sent,
    check_rate_limit_sent.
  fold (issued w (snd (retry_request transport user_url None (headers_in w) w))).
  fold (issued w (snd (retry_request transport (repo_url repo) None
                         (headers_in w) w))).
  fold (issued w (snd (retry_request transport rate_limit_url None
                         (headers_in w) w))).
  destruct (retry_request_issued transport user_url None (headers_in w) w)
    as [k1 ->].
  destruct (retry_request_issued transport (repo_url repo) None (headers_in w) w)
    as [k2 ->].
  destruct (retry_request_issued transport rate_limit_url None (headers_in w) w)
    as [k3 ->].
  assert (Hone : forall k u,
            req ∈ replicate (S k) (mkRequest u None (headers_in w)) ->
            url req = u /\ github_request (environ w) req).
  { intros k u Hin. apply elem_of_replicate_inv in Hin. subst req.
    split; [reflexivity|apply headers_in_github_request]. }
  split; [exact (Hone k1 user_url)|].
  split; [exact (Hone k2 (repo_url repo))|].
  split; [exact (Hone k3 rate_limit_url)|].
  by repeat split.
Qed.

(** An environment that holds [GITHUB_TOKEN] with the given value. *)
Definition token_world (token : string) : World :=
  fresh_world (<["GITHUB_TOKEN" := token]> ∅).

Lemma requests_carry_github_headers_witness :
  github_request (environ (token_world "ghp_example"))
    (mkRequest user_url None (headers_in (token_world "ghp_example")))
  /\ authorization_for (environ (token_world "ghp_example"))
     = Some "token ghp_example".
Proof.
  split; [|reflexivity].
  refine (proj2 (proj1 (requests_carry_github_headers
            (flaky 0 (mkResponse 200 None)) "octocat/Hello-World"
            (token_world "ghp_example")
            (mkRequest user_url None (headers_in (token_world "ghp_example"))))
          _)).
  change (mkRequest user_url None (headers_in (token_world "ghp_example"))
          ∈ [mkRequest user_url None (headers_in (token_world "ghp_example"))]).
  apply list_elem_of_here.
Defined.

(** C8 as stated: the [Authorization] header is present exactly when
    [GITHUB_TOKEN] is set. *)
Definition authorization_iff_token_set : Prop :=
  forall (transport : nat -> Request -> Outcome) (w : World) (req : Request),
    req ∈ issued w (snd (validate_token transport w)) ->
    exists hs, headers req = Some hs /\
      (is_Some (hs !! "Authorization")
       <-> is_Some (environ w !! "GITHUB_TOKEN")).

(** With [GITHUB_TOKEN] set to the empty string, [if token:] is false and
    the request goes out with the two default headers only. *)
Lemma empty_token_sends_no_authorization :
  environ (token_world "") !! "GITHUB_TOKEN" = Some ""
  /\ issued (token_world "")
       (snd (validate_token (flaky 0 (mkResponse 200 None)) (token_world "")))
     = [mkRequest user_url None (Some default_headers)]
  /\ default_headers !! "Authorization" = None
  /\ ~ authorization_iff_token_set.
Proof.
  split; [reflexivity|]. split; [reflexivity|]. split; [reflexivity|].
  intros Hclaim.
  destruct (Hclaim (flaky 0 (mkResponse 200 None)) (token_world "")
              (mkRequest user_url None (Some default_headers)))
    as (hs & Hhs & Hiff).
  - change (mkRequest user_url None (Some default_headers)
            ∈ [mkRequest user_url None (Some default_headers)]).
    apply list_elem_of_here.
  - simpl in Hhs. injection Hhs as <-.
    destruct (proj2 Hiff) as [v Hv]; [by eexists|]. discriminate Hv.
Qed.

(** ** The repository identifier *)

Section MatchFacts.

Variables (cls : Re.char -> bool) (rest : list Re.item).

Lemma matches_plus_unfold start s :
  Re.matches (Re.PlusSet cls :: rest) start s
  = match s with
    | [] => false
    | x :: s' =>
        cls x && (Re.matches (Re.PlusSet cls :: rest) false s'
                  || Re.matches rest false s')
    end.
Proof. by destruct s. Qed.

(** [cls+] followed by [rest] matches [s] exactly when [s] splits into a
    non-empty run of [cls] characters and a remainder [rest] matches. *)
Lemma matches_plus start s :
  Re.matches (Re.PlusSet cls :: rest) start s = true <->
  exists a b, s = (a ++ b)%list /\ a <> [] /\ forallb cls a = true /\
              Re.matches rest false b = true.
Proof.
  revert start. induction s as [|x s IH]; intros start.
  - rewrite matches_plus_unfold. split; [done|].
    intros (a & b & Hs & Ha & _). by destruct a.
  - rewrite matches_plus_unfold, andb_true_iff, orb_true_iff, (IH false).
    split.
    + intros [Hx [(a & b & -> & Ha & Hcls & Hb)|Hb]].
      * exists (x :: a), b. simpl. by rewrite Hx, Hcls.
      * exists [x], s. simpl. by rewrite Hx.
    + intros (a & b & Hs & Ha & Hcls & Hb).
      destruct a as [|y a]; [done|]. simpl in Hs, Hcls.
      injection Hs as <- ->. apply andb_true_iff in Hcls as [Hy Hcls].
      split; [done|]. destruct a as [|z a]; [by right|].
      left. by exists (z :: a), b.
Qed.

End MatchFacts.

Lemma matches_chr c rest start s :
  Re.matches (Re.Chr c :: rest) start s = true <->
  exists s', s = c :: s' /\ Re.matches rest false s' = true.
Proof.
  destruct s as [|x s]; simpl.
  - split; [done|]. by intros (s' & Hs & _).
  - rewrite andb_true_iff, N.eqb_eq. split.
    + intros [-> Hs]. eauto.
    + intros (s' & Hs & Hm). by injection Hs as -> ->.
Qed.

(** Under [fullmatch] a closing [$] leaves nothing to consume. *)
Lemma matches_eol start s : Re.matches [Re.Eol] start s = true <-> s = [].
Proof.
  simpl. destruct s as [|x s]; [done|].
  rewrite andb_false_r. split; discriminate.
Qed.

Section RepoFormatFacts.

Variable unicode_isalnum : N -> bool.

(** The interpreter's table agrees with ASCII on the ASCII range. *)
Hypothesis isalnum_ascii :
  forall c, (c < 128)%N -> unicode_isalnum c = ascii_isalnum c.

Let cls := word_or_hyphen unicode_isalnum.

(** Two non-empty runs of word characters or hyphens around one [/]. *)
Definition owner_slash_repo (s : list N) : Prop :=
  exists owner name,
    s = (owner ++ slash :: name)%list /\ owner <> [] /\ name <> [] /\
    forallb cls owner = true /\ forallb cls name = true.

Definition dot : N := 46%N.

Lemma fullmatch_owner_slash_repo s :
  Re.fullmatch (pattern unicode_isalnum) s = true <-> owner_slash_repo s.
Proof.
  unfold Re.fullmatch, pattern, owner_slash_repo. fold cls.
  change (Re.matches (Re.Bol :: ?r) true s) with (Re.matches r true s).
  rewrite matches_plus. split.
  - intros (a & b & -> & Ha & Hcls & Hb).
    apply matches_chr in Hb as (b' & -> & Hb').
    apply matches_plus in Hb' as (c & d & -> & Hc & Hcls' & Hd).
    apply matches_eol in Hd as ->. rewrite app_nil_r. by exists a, c.
  - intros (owner & name & -> & Ho & Hn & Hclso & Hclsn).
    exists owner, (slash :: name). repeat split; try done.
    apply matches_chr. exists name. split; [done|].
    apply matches_plus. exists name, []. rewrite app_nil_r.
    repeat split; done.
Qed.

Lemma cls_not_slash : cls slash = false.
Proof.
  unfold cls, word_or_hyphen, word. by rewrite isalnum_ascii.
Qed.

Lemma cls_not_dot : cls dot = false.
Proof.
  unfold cls, word_or_hyphen, word. by rewrite isalnum_ascii.
Qed.

Lemma cls_run_excludes c s :
  cls c = false -> forallb cls s = true -> ~ In c s.
Proof.
  intros Hc Hs Hin. rewrite forallb_forall in Hs.
  specialize (Hs c Hin). congruence.
Qed.

Lemma owner_slash_repo_no_dot s : In dot s -> ~ owner_slash_repo s.
Proof.
  intros Hin (owner & name & -> & _ & _ & Ho & Hn).
  apply in_app_or in Hin as [Hin|[Heq|Hin]].
  - by apply (cls_run_excludes dot owner cls_not_dot).
  - discriminate Heq.
  - by apply (cls_run_excludes dot name cls_not_dot).
Qed.

Lemma owner_slash_repo_one_slash s :
  owner_slash_repo s -> count_occ N.eq_dec s slash = 1%nat.
Proof.
  intros (owner & name & -> & _ & _ & Ho & Hn).
  rewrite count_occ_app, count_occ_cons_eq by done.
  rewrite (proj1 (count_occ_not_In N.eq_dec owner slash))
    by by apply cls_run_excludes, Ho; apply cls_not_slash.
  rewrite (proj1 (count_occ_not_In N.eq_dec name slash))
    by by apply cls_run_excludes, Hn; apply cls_not_slash.
  done.
Qed.

Lemma owner_slash_repo_two_slashes a b c :
  ~ owner_slash_repo (a ++ slash :: b ++ slash :: c).
Proof.
  intros Hs. apply owner_slash_repo_one_slash in Hs.
  rewrite count_occ_app, count_occ_cons_eq, count_occ_app,
    count_occ_cons_eq in Hs by done.
  lia.
Qed.

Lemma owner_slash_repo_empty_owner name : ~ owner_slash_repo (slash :: name).
Proof.
  intros (owner & name' & Hs & Ho & _ & Hcls & _).
  destruct owner as [|x owner]; [done|].
  simpl in Hs, Hcls. injection Hs as <- _.
  by rewrite cls_not_slash in Hcls.
Qed.

Lemma owner_slash_repo_empty_name owner : ~ owner_slash_repo (owner ++ [slash]).
Proof.
  intros (owner' & name & Hs & _ & Hn & _ & Hcls).
  destruct (exists_last Hn) as (name' & x & ->).
  change (slash :: name' ++ [x])%list with ((slash :: name') ++ [x])%list in Hs.
  rewrite app_assoc in Hs. apply app_inj_tail in Hs as [_ <-].
  rewrite forallb_app in Hcls. simpl in Hcls.
  rewrite cls_not_slash in Hcls. by rewrite andb_false_r in Hcls.
Qed.

End RepoFormatFacts.

(** The code points of a text written in ASCII. *)
Definition codepoints (s : string) : list N :=
  map Ascii.N_of_ascii (String.list_ascii_of_string s).

(** C9: [validate_repo_format] returns [True], printing nothing, exactly
    for the strings made of two non-empty runs of word characters or
    hyphens around a single [/]; for every other string it prints the
    format message and returns [False].  In particular a string that
    contains a dot, has an empty owner or an empty name, or has more than
    one slash is rejected. *)
Theorem validate_repo_format_spec
    (unicode_isalnum : N -> bool)
    (isalnum_ascii : forall c, (c < 128)%N -> unicode_isalnum c = ascii_isalnum c)
    (repo : list N) (w : World) :
  (owner_slash_repo unicode_isalnum repo ->
     validate_repo_format unicode_isalnum repo w = (Ret true, w))
  /\ (~ owner_slash_repo unicode_isalnum repo ->
     validate_repo_format unicode_isalnum repo w
     = (Ret false, printed format_message w))
  /\ (In dot repo
      \/ (exists name, repo = slash :: name)
      \/ (exists owner, repo = (owner ++ [slash])%list)
      \/ (exists a b c, repo = (a ++ slash :: b ++ slash :: c)%list) ->
     validate_repo_format unicode_isalnum repo w
     = (Ret false, printed format_message w)).
Proof.
  assert (Hno : ~ owner_slash_repo unicode_isalnum repo ->
            validate_repo_format unicode_isalnum repo w
            = (Ret false, printed format_message w)).
  { intros Hn. unfold validate_repo_format.
    destruct (Re.fullmatch (pattern unicode_isalnum) repo) eqn:Hm; [|done].
    by apply fullmatch_owner_slash_repo in Hm. }
  split; [|split; [exact Hno|]].
  - intros Hs. unfold validate_repo_format.
    apply fullmatch_owner_slash_repo in Hs. by rewrite Hs.
  - intros [Hdot|[[name ->]|[[owner ->]|(a & b & c & ->)]]]; apply Hno.
    + by apply owner_slash_repo_no_dot.
    + by apply owner_slash_repo_empty_owner.
    + by apply owner_slash_repo_empty_name.
    + by apply owner_slash_repo_two_slashes.
Qed.

Lemma validate_repo_format_spec_witness :
  validate_repo_format ascii_isalnum (codepoints "octocat/Hello-World")
                       (fresh_world ∅)
  = (Ret true, fresh_world ∅)
  /\ validate_repo_format ascii_isalnum (codepoints "owner/repo.name")
                          (fresh_world ∅)
     = (Ret false, printed format_message (fresh_world ∅)).
Proof.
  split.
  - refine (proj1 (validate_repo_format_spec ascii_isalnum
              (fun _ _ => eq_refl) (codepoints "octocat/Hello-World")
              (fresh_world ∅)) _).
    exists (codepoints "octocat"), (codepoints "Hello-World").
    repeat split; discriminate.
  - refine (proj2 (proj2 (validate_repo_format_spec ascii_isalnum
              (fun _ _ => eq_refl) (codepoints "owner/repo.name")
              (fresh_world ∅))) _).
    left. vm_compute. tauto.
Defined.

(** ** The rate-limit report *)

Lemma dict_get_missing (entries : list (string * JValue)) (key : string)
    (default : JValue) :
  ~ In key (map fst entries) -> dict_get entries key default = default.
Proof.
  unfold dict_get. revert default.
  induction entries as [|[k v] entries IH]; intros default Hnot; [done|].
  simpl in *. destruct (String.eqb_spec k key) as [->|Hne].
  - exfalso. auto.
  - apply IH. auto.
Qed.

(** The record [check_rate_limit] logs for a well-formed answer. *)
Definition rate_limit_report (remaining limit : JValue) : LogRecord :=
  mkLog INFO [Lit "GitHub API 요청 가능 횟수: "; OfJson remaining;
              Lit " / "; OfJson limit].

(** C10, as amended: [check_rate_limit] returns [None] without raising
    when the retried GET raises (the error is caught and logged), when it
    completes with a status other than 200 (an error is logged), and when
    it completes with status 200 and a body that decodes to a JSON object
    whose ["resources"] and ["core"] entries, where present, are objects;
    in that last case the values logged are those of ["remaining"] and
    ["limit"], with ['N/A'] for each of them that is missing, and for both
    when ["resources"] or ["core"] is missing. *)
Theorem check_rate_limit_returns_none
    (transport : nat -> Request -> Outcome) (w : World) :
  let run := retry_request transport rate_limit_url None (headers_in w) w in
  (forall x w', run = (Raise x, w') ->
     check_rate_limit transport w
     = (Ret tt,
        logged (mkLog ERROR
                  [Lit "API 요청 제한 정보를 가져오는데 실패했습니다: "; OfExc x])
               w'))
  /\ (forall r w', run = (Ret r, w') -> status_code r <> 200 ->
     check_rate_limit transport w
     = (Ret tt,
        logged (mkLog ERROR
                  [Lit "API 요청 제한 정보를 가져오는데 실패했습니다 (status code: ";
                   OfInt (status_code r); Lit ")."])
               w'))
  /\ (forall r w' data resources core,
     run = (Ret r, w') -> status_code r = 200 ->
     json_body r = Some (JObj data) ->
     dict_get data "resources" (JObj []) = JObj resources ->
     dict_get resources "core" (JObj []) = JObj core ->
     check_rate_limit transport w
     = (Ret tt,
        logged (rate_limit_report (dict_get core "remaining" (JStr "N/A"))
                                  (dict_get core "limit" (JStr "N/A")))
               w'))
  /\ (forall r w' data,
     run = (Ret r, w') -> status_code r = 200 ->
     json_body r = Some (JObj data) ->
     ~ In "resources" (map fst data)
     \/ (exists resources,
           dict_get data "resources" (JObj []) = JObj resources /\
           ~ In "core" (map fst resources)) ->
     check_rate_limit transport w
     = (Ret tt, logged (rate_limit_report (JStr "N/A") (JStr "N/A")) w'))
  /\ (forall core key, ~ In key (map fst core) ->
        dict_get core key (JStr "N/A") = JStr "N/A").
Proof.
  intros run. subst run.
  assert (Hok : forall r w' data resources core,
     retry_request transport rate_limit_url None (headers_in w) w = (Ret r, w') ->
     status_code r = 200 ->
     json_body r = Some (JObj data) ->
     dict_get data "resources" (JObj []) = JObj resources ->
     dict_get resources "core" (JObj []) = JObj core ->
     check_rate_limit transport w
     = (Ret tt,
        logged (rate_limit_report (dict_get core "remaining" (JStr "N/A"))
                                  (dict_get core "limit" (JStr "N/A")))
               w')).
  { intros r w' data resources core Hrun Hs Hbody Hres Hcore.
    unfold check_rate_limit, bind, getenv, try_except.
    fold rate_limit_url. fold (headers_in w). rewrite Hrun. simpl.
    rewrite Hs. simpl. unfold response_json. rewrite Hbody. simpl.
    rewrite Hres. simpl. by rewrite Hcore. }
  split; [|split; [|split; [exact Hok|split]]].
  - intros x w' Hrun.
    destruct (retry_request_raises_transport _ _ _ _ _ _ _ Hrun) as [e ->].
    unfold check_rate_limit, bind, getenv, try_except.
    fold rate_limit_url. fold (headers_in w). by rewrite Hrun.
  - intros r w' Hrun Hs.
    unfold check_rate_limit, bind, getenv, try_except.
    fold rate_limit_url. fold (headers_in w). rewrite Hrun. simpl.
    by destruct (Z.eqb_spec (status_code r) 200).
  - intros r w' data Hrun Hs Hbody [Hnot|(resources & Hres & Hnot)].
    + by rewrite (Hok r w' data [] [] Hrun Hs Hbody
                    (dict_get_missing _ _ _ Hnot) eq_refl).
    + by rewrite (Hok r w' data resources [] Hrun Hs Hbody Hres
                    (dict_get_missing _ _ _ Hnot)).
  - intros core key Hnot. by apply dict_get_missing.
Qed.

(** A body as the rate-limit endpoint answers it. *)
Definition rate_limit_body (core : list (string * JValue)) : JValue :=
  JObj [("resources", JObj [("core", JObj core)])].

Lemma check_rate_limit_returns_none_witness :
  check_rate_limit
    (flaky 0 (mkResponse 200
                (Some (rate_limit_body [("limit", JInt 5000);
                                        ("remaining", JInt 4999)]))))
    (fresh_world ∅)
  = (Ret tt,
     logged (rate_limit_report (JInt 4999) (JInt 5000))
            (requested (mkRequest rate_limit_url None (headers_in (fresh_world ∅)))
                       (fresh_world ∅)))
  /\ check_rate_limit (flaky 0 (mkResponse 200 (Some (JObj []))))
                      (fresh_world ∅)
     = (Ret tt,
        logged (rate_limit_report (JStr "N/A") (JStr "N/A"))
               (requested (mkRequest rate_limit_url None
                                     (headers_in (fresh_world ∅)))
                          (fresh_world ∅))).
Proof.
  split.
  - exact (proj1 (proj2 (proj2 (check_rate_limit_returns_none
             (flaky 0 (mkResponse 200
                         (Some (rate_limit_body [("limit", JInt 5000);
                                                 ("remaining", JInt 4999)]))))
             (fresh_world ∅))))
           _ _ _ _ _ eq_refl eq_refl eq_refl eq_refl eq_refl).
  - refine (proj1 (proj2 (proj2 (proj2 (check_rate_limit_returns_none
              (flaky 0 (mkResponse 200 (Some (JObj [])))) (fresh_world ∅)))))
            _ _ [] eq_refl eq_refl eq_refl _).
    left. simpl. tauto.
Defined.

(** C10 as stated: [check_rate_limit] never raises. *)
Definition check_rate_limit_never_raises : Prop :=
  forall (transport : nat -> Request -> Outcome) (w : World),
    exists w', check_rate_limit transport w = (Ret tt, w').

(** A 200 answer whose body is not JSON makes [response.json()] raise, and
    one whose body is a JSON array makes [data.get] raise; neither call is
    inside the [try]. *)
Lemma check_rate_limit_raises_on_bad_body :
  check_rate_limit (flaky 0 (mkResponse 200 None)) (fresh_world ∅)
  = (Raise JSONDecodeError,
     requested (mkRequest rate_limit_url None (Some default_headers))
               (fresh_world ∅))
  /\ fst (check_rate_limit (flaky 0 (mkResponse 200 (Some (JArr []))))
                           (fresh_world ∅))
     = Raise (AttributeError "'list' object has no attribute 'get'")
  /\ ~ check_rate_limit_never_raises.
Proof.
  split; [reflexivity|]. split; [reflexivity|].
  intros Hclaim.
  destruct (Hclaim (flaky 0 (mkResponse 200 None)) (fresh_world ∅))
    as [w' Hrun].
  discriminate Hrun.
Qed.

(** * Further properties *)

(** ** The repository identifier, continued *)

(** The ASCII characters of the class [[\w\-]]. *)
Definition ascii_name_char (c : N) : bool :=
  ascii_isalnum c || (c =? 95)%N || (c =? 45)%N.

Lemma validate_repo_format_rejects (unicode_isalnum : N -> bool)
    (repo : list N) (w : World) :
  ~ owner_slash_repo unicode_isalnum repo ->
  validate_repo_format unicode_isalnum repo w
  = (Ret false, printed format_message w).
Proof.
  intros Hn. unfold validate_repo_format.
  destruct (Re.fullmatch (pattern unicode_isalnum) repo) eqn:Hm; [|done].
  by apply fullmatch_owner_slash_repo in Hm.
Qed.

Lemma validate_repo_format_accepted (unicode_isalnum : N -> bool)
    (repo : list N) (w w' : World) :
  validate_repo_format unicode_isalnum repo w = (Ret true, w') ->
  owner_slash_repo unicode_isalnum repo /\ w' = w.
Proof.
  unfold validate_repo_format.
  destruct (Re.fullmatch (pattern unicode_isalnum) repo) eqn:Hm.
  - intros [= <-]. split; [|done]. by apply fullmatch_owner_slash_repo.
  - intros [=].
Qed.

Lemma ascii_name_char_class (unicode_isalnum : N -> bool) (c : N) :
  (forall c, (c < 128)%N -> unicode_isalnum c = ascii_isalnum c) ->
  (c < 128)%N ->
  word_or_hyphen unicode_isalnum c = ascii_name_char c.
Proof.
  intros Hascii Hc. unfold word_or_hyphen, word, ascii_name_char.
  by rewrite Hascii.
Qed.

Lemma ascii_name_char_lt (c : N) : ascii_name_char c = true -> (c < 128)%N.
Proof.
  unfold ascii_name_char, ascii_isalnum.
  rewrite !orb_true_iff, !andb_true_iff, !N.leb_le, !N.eqb_eq. lia.
Qed.

(** A split at a separator that occurs in neither part is the only one. *)
Lemma split_at_separator_unique (x : N) (a a' b b' : list N) :
  ~ In x a -> ~ In x a' ->
  (a ++ x :: b)%list = (a' ++ x :: b')%list -> a = a' /\ b = b'.
Proof.
  revert a'. induction a as [|y a IH]; intros [|y' a'] Ha Ha' Heq;
    simpl in *.
  - by injection Heq as ->.
  - injection Heq as <- _. tauto.
  - injection Heq as -> _. tauto.
  - injection Heq as -> Heq.
    destruct (IH a') as [-> ->]; [tauto..|done|done].
Qed.

(** X1: an identifier that contains any ASCII character other than a
    letter, a digit, [_], [-] or [/] (a space, a dot, [?], [#], [%], a
    line feed, ...) is rejected with the format message; in
    particular an identifier that ends in a line feed is rejected, since
    [fullmatch] does not let [$] stop before a final newline. *)
Theorem validate_repo_format_rejects_other_ascii
    (unicode_isalnum : N -> bool)
    (isalnum_ascii : forall c, (c < 128)%N -> unicode_isalnum c = ascii_isalnum c)
    (repo : list N) (w : World) (c : N) :
  (c < 128)%N -> ascii_name_char c = false -> c <> slash -> In c repo ->
  validate_repo_format unicode_isalnum repo w
  = (Ret false, printed format_message w)
  /\ validate_repo_format unicode_isalnum (repo ++ [Re.newline]) w
     = (Ret false, printed format_message w).
Proof.
  intros Hc Hname Hslash Hin.
  assert (Hrej : forall d s, (d < 128)%N -> ascii_name_char d = false ->
            d <> slash -> In d s -> ~ owner_slash_repo unicode_isalnum s).
  { intros d s Hd Hdn Hds Hds' (owner & name & -> & _ & _ & Ho & Hn).
    assert (Hcls : word_or_hyphen unicode_isalnum d = false)
      by by rewrite ascii_name_char_class.
    apply in_app_or in Hds' as [Hi|[Heq|Hi]].
    - by apply (cls_run_excludes unicode_isalnum d owner Hcls).
    - by symmetry in Heq.
    - by apply (cls_run_excludes unicode_isalnum d name Hcls). }
  split; apply validate_repo_format_rejects.
  - by apply (Hrej c).
  - apply (Hrej Re.newline); [done..|]. apply in_or_app. right. by left.
Qed.

Lemma validate_repo_format_rejects_other_ascii_witness :
  validate_repo_format ascii_isalnum (codepoints "my org/repo") (fresh_world ∅)
  = (Ret false, printed format_message (fresh_world ∅)).
Proof.
  refine (proj1 (validate_repo_format_rejects_other_ascii ascii_isalnum
            (fun _ _ => eq_refl) (codepoints "my org/repo") (fresh_world ∅)
            32%N _ _ _ _)).
  - reflexivity.
  - reflexivity.
  - discriminate.
  - vm_compute. tauto.
Defined.

(** X2: when [validate_repo_format] returns [True] it has printed
    nothing, and the identifier splits at a [/] in exactly one way: into a
    non-empty owner and a non-empty name, neither of which contains [/]. *)
Theorem validate_repo_format_accepted_split
    (unicode_isalnum : N -> bool)
    (isalnum_ascii : forall c, (c < 128)%N -> unicode_isalnum c = ascii_isalnum c)
    (repo : list N) (w w' : World) :
  validate_repo_format unicode_isalnum repo w = (Ret true, w') ->
  w' = w /\
  exists owner name,
    repo = (owner ++ slash :: name)%list /\
    owner <> [] /\ name <> [] /\ ~ In slash owner /\ ~ In slash name /\
    (forall owner' name', repo = (owner' ++ slash :: name')%list ->
       owner' = owner /\ name' = name).
Proof.
  intros Hrun. apply validate_repo_format_accepted in Hrun as [Hs ->].
  split; [done|].
  pose proof (owner_slash_repo_one_slash _ isalnum_ascii _ Hs) as Hone.
  destruct Hs as (owner & name & -> & Ho & Hn & Hco & Hcn).
  assert (Hso : ~ In slash owner)
    by (apply (cls_run_excludes unicode_isalnum); [|done];
        by apply cls_not_slash).
  assert (Hsn : ~ In slash name)
    by (apply (cls_run_excludes unicode_isalnum); [|done];
        by apply cls_not_slash).
  exists owner, name. do 5 (split; [done|]).
  intros owner' name' Heq.
  rewrite Heq, count_occ_app, count_occ_cons_eq in Hone by done.
  assert (Ho' : ~ In slash owner')
    by (apply (count_occ_not_In N.eq_dec); lia).
  by destruct (split_at_separator_unique slash owner owner' name name').
Qed.

Lemma validate_repo_format_accepted_split_witness :
  exists owner name,
    codepoints "octocat/Hello-World" = (owner ++ slash :: name)%list /\
    owner <> [] /\ name <> [].
Proof.
  destruct (validate_repo_format_accepted_split ascii_isalnum
              (fun _ _ => eq_refl) (codepoints "octocat/Hello-World")
              (fresh_world ∅) (fresh_world ∅) eq_refl)
    as (_ & owner & name & Hs & Ho & Hn & _).
  exists owner, name. auto.
Defined.

(** X3: every identifier [owner/name] whose two parts are non-empty runs
    of ASCII letters, digits, [_] and [-] is accepted and nothing is
    printed; the check is lexical only, so [-/_] passes too. *)
Theorem validate_repo_format_accepts_ascii_names
    (unicode_isalnum : N -> bool)
    (isalnum_ascii : forall c, (c < 128)%N -> unicode_isalnum c = ascii_isalnum c)
    (owner name : list N) (w : World) :
  owner <> [] -> name <> [] ->
  forallb ascii_name_char owner = true ->
  forallb ascii_name_char name = true ->
  validate_repo_format unicode_isalnum (owner ++ slash :: name) w
  = (Ret true, w).
Proof.
  intros Ho Hn Hco Hcn.
  assert (Hcls : forall s, forallb ascii_name_char s = true ->
            forallb (word_or_hyphen unicode_isalnum) s = true).
  { intros s Hs. rewrite forallb_forall in *. intros c Hc.
    specialize (Hs c Hc).
    rewrite ascii_name_char_class; auto using ascii_name_char_lt. }
  unfold validate_repo_format.
  assert (Hm : Re.fullmatch (pattern unicode_isalnum) (owner ++ slash :: name)
               = true).
  { apply fullmatch_owner_slash_repo. exists owner, name. auto 10. }
  by rewrite Hm.
Qed.

Lemma validate_repo_format_accepts_ascii_names_witness :
  validate_repo_format ascii_isalnum (codepoints "-/_") (fresh_world ∅)
  = (Ret true, fresh_world ∅).
Proof.
  refine (validate_repo_format_accepts_ascii_names ascii_isalnum
            (fun _ _ => eq_refl) (codepoints "-") (codepoints "_")
            (fresh_world ∅) _ _ _ _); try discriminate; reflexivity.
Defined.

(** ** The callers, continued *)

Lemma logged_logs (r : LogRecord) (w : World) :
  logs (logged r w) = (logs w ++ [r])%list.
Proof. done. Qed.

(** X4: [check_github_repo_exists] never raises; it returns [True] exactly
    when the retried GET completed with status 200, and then it has logged
    nothing; whenever it returns [False] the first record it has logged is
    a warning. *)
Theorem check_github_repo_exists_true_iff_200
    (transport : nat -> Request -> Outcome) (repo : string) (w : World) :
  let run := retry_request transport (repo_url repo) None (headers_in w) w in
  exists b w',
    check_github_repo_exists transport repo w = (Ret b, w') /\
    (b = true <-> exists r, fst run = Ret r /\ status_code r = 200) /\
    (b = true -> w' = snd run) /\
    (b = false -> exists msg rest,
       logs w' = (logs (snd run) ++ mkLog WARNING msg :: rest)%list).
Proof.
  intros run. subst run.
  unfold check_github_repo_exists, bind, getenv, try_except.
  fold (repo_url repo). fold (headers_in w).
  destruct (retry_request transport (repo_url repo) None (headers_in w) w)
    as [[r|x] w1] eqn:Hrun; simpl.
  - destruct (Z.eqb_spec (status_code r) 200) as [Hs|Hs].
    + exists true, w1. repeat split; eauto; done.
    + assert (Hno : ~ exists r0, Ret r = Ret r0 /\ status_code r0 = 200)
        by (intros (r0 & [= <-] & Hr0); done).
      destruct (status_code r =? 403)%Z; [|destruct (status_code r =? 404)%Z];
        simpl; eexists false, _; (split; [reflexivity|]);
        (split; [split; [done|intros Hex; by destruct Hno]|]);
        (split; [done|]); intros _; rewrite ?logged_logs, <- ?app_assoc;
        eauto.
  - destruct (retry_request_raises_transport _ _ _ _ _ _ _ Hrun) as [e ->].
    simpl. eexists false, _. split; [reflexivity|].
    split; [split; [done|by intros (r0 & [=] & _)]|].
    split; [done|]. intros _. rewrite logged_logs. eauto.
Qed.

(** X5: on status 403 [check_github_repo_exists] returns [False] after a
    warning and an INFO record that points to the token; on any status
    other than 200, 403 and 404 it returns [False] after one warning that
    carries the status code. *)
Theorem check_github_repo_exists_other_statuses
    (transport : nat -> Request -> Outcome) (repo : string) (w w' : World)
    (r : Response) :
  retry_request transport (repo_url repo) None (headers_in w) w = (Ret r, w') ->
  (status_code r = 403 ->
     check_github_repo_exists transport repo w
     = (Ret false,
        logged (mkLog INFO
                  [Lit "ℹ️ 해결 방법: --token 옵션 또는 GITHUB_TOKEN 환경 변수 사용"])
          (logged (mkLog WARNING
                     [Lit "⚠️ GitHub API 요청 실패: 403 (요청 횟수 초과 또는 인증 오류)"])
                  w')))
  /\ (status_code r <> 200 -> status_code r <> 403 -> status_code r <> 404 ->
     check_github_repo_exists transport repo w
     = (Ret false,
        logged (mkLog WARNING
                  [Lit "⚠️ 요청 실패: HTTP 상태 코드 "; OfInt (status_code r)])
               w')).
Proof.
  intros Hrun.
  unfold check_github_repo_exists, bind, getenv, try_except.
  fold (repo_url repo). fold (headers_in w). rewrite Hrun. simpl. split.
  - by intros ->.
  - intros H200 H403 H404.
    destruct (Z.eqb_spec (status_code r) 200); [done|].
    destruct (Z.eqb_spec (status_code r) 403); [done|].
    by destruct (Z.eqb_spec (status_code r) 404).
Qed.

Lemma check_github_repo_exists_other_statuses_witness :
  fst (check_github_repo_exists (flaky 0 (mkResponse 500 None))
                                "octocat/Hello-World" (fresh_world ∅))
  = Ret false
  /\ length (logs (snd (check_github_repo_exists
                          (flaky 0 (mkResponse 403 None))
                          "octocat/Hello-World" (fresh_world ∅)))) = 2%nat.
Proof.
  split.
  - rewrite (proj2 (check_github_repo_exists_other_statuses
              (flaky 0 (mkResponse 500 None)) "octocat/Hello-World"
              (fresh_world ∅) _ (mkResponse 500 None) eq_refl));
      [reflexivity|discriminate..].
  - by rewrite (proj1 (check_github_repo_exists_other_statuses
              (flaky 0 (mkResponse 403 None)) "octocat/Hello-World"
              (fresh_world ∅) _ (mkResponse 403 None) eq_refl) eq_refl).
Defined.

(** X6: when [validate_token] returns, the retried GET had completed with
    status 200 and nothing has been logged. *)
Theorem validate_token_returns_only_on_200
    (transport : nat -> Request -> Outcome) (w w' : World) :
  validate_token transport w = (Ret tt, w') ->
  exists r,
    retry_request transport user_url None (headers_in w) w = (Ret r, w') /\
    status_code r = 200.
Proof.
  unfold validate_token, bind, getenv, try_except.
  fold user_url. fold (headers_in w).
  destruct (retry_request transport user_url None (headers_in w) w)
    as [[r|x] w1]; simpl.
  - destruct (Z.eqb_spec (status_code r) 200) as [Hs|Hs]; simpl.
    + intros [= <-]. eauto.
    + intros [=].
  - destruct (is_Exception x); intros [=].
Qed.

Lemma validate_token_returns_only_on_200_witness :
  exists r,
    retry_request (flaky 1 (mkResponse 200 None)) user_url None
                  (headers_in (fresh_world ∅)) (fresh_world ∅)
    = (Ret r,
       attempts_made 1 1 (mkRequest user_url None (headers_in (fresh_world ∅)))
                     (fresh_world ∅))
    /\ status_code r = 200.
Proof.
  exact (validate_token_returns_only_on_200 (flaky 1 (mkResponse 200 None))
           (fresh_world ∅) _ eq_refl).
Defined.

(** X7: whatever [validate_token] raises is [SystemExit(1)], and by then
    it has logged exactly one record, an error. *)
Theorem validate_token_raises_only_system_exit
    (transport : nat -> Request -> Outcome) (w w' : World) (x : PyExc) :
  validate_token transport w = (Raise x, w') ->
  x = SystemExit 1 /\
  exists msg,
    logs w'
    = (logs (snd (retry_request transport user_url None (headers_in w) w))
       ++ [mkLog ERROR msg])%list.
Proof.
  unfold validate_token, bind, getenv, try_except.
  fold user_url. fold (headers_in w).
  destruct (retry_request transport user_url None (headers_in w) w)
    as [[r|y] w1] eqn:Hrun; simpl.
  - destruct (Z.eqb_spec (status_code r) 200) as [Hs|Hs]; simpl.
    + intros [=].
    + intros [= <- <-]. eauto.
  - destruct (retry_request_raises_transport _ _ _ _ _ _ _ Hrun) as [e ->].
    simpl. intros [= <- <-]. eauto.
Qed.

Lemma validate_token_raises_only_system_exit_witness :
  fst (validate_token (flaky 0 (mkResponse 401 None)) (fresh_world ∅))
  = Raise (SystemExit 1).
Proof.
  destruct (validate_token (flaky 0 (mkResponse 401 None)) (fresh_world ∅))
    as [[[]|x] w'] eqn:Hrun.
  - discriminate Hrun.
  - by destruct (validate_token_raises_only_system_exit _ _ _ _ Hrun) as [-> _].
Defined.

(** ** The rate-limit report, continued *)

(** The body [check_rate_limit] can read: a JSON object whose
    ["resources"] and ["core"] entries, where present, are objects. *)
Definition rate_limit_body_ok (r : Response) : bool :=
  match json_body r with
  | Some (JObj data) =>
      match dict_get data "resources" (JObj []) with
      | JObj resources =>
          match dict_get resources "core" (JObj []) with
          | JObj _ => true
          | _ => false
          end
      | _ => false
      end
  | _ => false
  end.

(** What [check_rate_limit] does with a 200 answer. *)
Lemma check_rate_limit_on_200
    (transport : nat -> Request -> Outcome) (w w' : World) (r : Response) :
  retry_request transport rate_limit_url None (headers_in w) w = (Ret r, w') ->
  status_code r = 200 ->
  if rate_limit_body_ok r
  then exists remaining limit,
         check_rate_limit transport w
         = (Ret tt, logged (rate_limit_report remaining limit) w')
  else exists x,
         check_rate_limit transport w = (Raise x, w') /\
         (json_body r = None -> x = json_failure r) /\
         (is_Some (json_body r) -> exists msg, x = AttributeError msg).
Proof.
  intros Hrun Hs.
  unfold check_rate_limit, bind, getenv, try_except, rate_limit_body_ok.
  fold rate_limit_url. fold (headers_in w). rewrite Hrun. simpl.
  rewrite Hs. simpl. unfold response_json.
  destruct (json_body r) as [data|]; simpl.
  - destruct data as [| | | | | |data]; simpl;
      try (eexists; split; [reflexivity|]; split; [done|eauto]).
    destruct (dict_get data "resources" (JObj [])) as [| | | | | |resources];
      simpl;
      try (eexists; split; [reflexivity|]; split; [done|eauto]).
    destruct (dict_get resources "core" (JObj [])) as [| | | | | |core]; simpl;
      try (eexists; split; [reflexivity|]; split; [done|eauto]).
    by eexists _, _.
  - eexists. split; [reflexivity|]. split; [done|]. by intros [? ?].
Qed.

(** X8: [check_rate_limit] raises only after a 200 answer whose body it
    cannot read: [response.json()] raises, or the decoded value is not an
    object, or its ["resources"] or ["core"] entry is not an object.  It
    then lets through what [response.json()] raised, or raises an
    [AttributeError] when the body did decode, and it has logged nothing.
    Conversely every such answer makes it raise. *)
Theorem check_rate_limit_raises_iff_unreadable_body
    (transport : nat -> Request -> Outcome) (w : World) :
  let run := retry_request transport rate_limit_url None (headers_in w) w in
  (forall x w2, check_rate_limit transport w = (Raise x, w2) ->
     exists r,
       run = (Ret r, w2) /\ status_code r = 200 /\
       rate_limit_body_ok r = false /\
       (json_body r = None -> x = json_failure r) /\
       (is_Some (json_body r) -> exists msg, x = AttributeError msg))
  /\ (forall r w', run = (Ret r, w') -> status_code r = 200 ->
        rate_limit_body_ok r = false ->
        exists x, check_rate_limit transport w = (Raise x, w') /\
                  (json_body r = None -> x = json_failure r) /\
                  (is_Some (json_body r) -> exists msg, x = AttributeError msg)).
Proof.
  intros run. subst run. split.
  - intros x w2 Hraise.
    destruct (retry_request transport rate_limit_url None (headers_in w) w)
      as [[r|y] w1] eqn:Hrun.
    + destruct (Z.eq_dec (status_code r) 200) as [Hs|Hs].
      * pose proof (check_rate_limit_on_200 _ _ _ _ Hrun Hs) as Hcase.
        destruct (rate_limit_body_ok r) eqn:Hok.
        -- destruct Hcase as (? & ? & Hret).
           rewrite Hret in Hraise. discriminate Hraise.
        -- destruct Hcase as (x' & Hx' & Hnone & Hsome).
           rewrite Hx' in Hraise. injection Hraise as <- <-.
           exists r. auto.
      * exfalso. revert Hraise.
        unfold check_rate_limit, bind, getenv, try_except.
        fold rate_limit_url. fold (headers_in w). rewrite Hrun. simpl.
        by destruct (Z.eqb_spec (status_code r) 200).
    + exfalso. revert Hraise.
      destruct (retry_request_raises_transport _ _ _ _ _ _ _ Hrun) as [e ->].
      unfold check_rate_limit, bind, getenv, try_except.
      fold rate_limit_url. fold (headers_in w). by rewrite Hrun.
  - intros r w' Hrun Hs Hbad.
    pose proof (check_rate_limit_on_200 _ _ _ _ Hrun Hs) as Hcase.
    by rewrite Hbad in Hcase.
Qed.

Lemma check_rate_limit_raises_iff_unreadable_body_witness :
  let r := mkResponseRaising 200 None
             (ValueError "Exceeds the limit (4300 digits) for integer string conversion") in
  exists x,
    check_rate_limit (flaky 0 r) (fresh_world ∅)
    = (Raise x,
       requested (mkRequest rate_limit_url None (headers_in (fresh_world ∅)))
                 (fresh_world ∅))
    /\ x = json_failure r.
Proof.
  intros r.
  destruct (proj2 (check_rate_limit_raises_iff_unreadable_body
              (flaky 0 r) (fresh_world ∅)) r _ eq_refl eq_refl eq_refl)
    as (x & Hx & Hnone & _).
  exists x. split; [exact Hx|]. by apply Hnone.
Defined.

(** ** What the callers send and touch *)

Lemma with_token_keys (token : option string) (key : string) :
  is_Some (with_token token default_headers !! key) ->
  key = "Accept" \/ key = "User-Agent" \/ key = "Authorization".
Proof.
  unfold default_headers.
  destruct token as [[|a t]|]; simpl;
    rewrite ?lookup_insert; repeat case_decide; subst; auto;
    rewrite lookup_empty; by intros [? ?].
Qed.

(** X9: in every call of [session.get] that [validate_token],
    [check_github_repo_exists] and [check_rate_limit] make, on every
    attempt, the [params] argument is [None] and the [headers] argument
    is a dict with no key besides [Accept], [User-Agent] and
    [Authorization].  This is about the arguments the module passes: what
    the session adds of its own, and a query string written into the
    repository identifier, are outside it. *)
Theorem callers_pass_only_three_headers
    (transport : nat -> Request -> Outcome) (repo : string) (w : World)
    (req : Request) :
  req ∈ issued w (snd (validate_token transport w))
  \/ req ∈ issued w (snd (check_github_repo_exists transport repo w))
  \/ req ∈ issued w (snd (check_rate_limit transport w)) ->
  params req = None /\
  exists hs, headers req = Some hs /\
    forall key, is_Some (hs !! key) ->
      key = "Accept" \/ key = "User-Agent" \/ key = "Authorization".
Proof.
  unfold issued.
  rewrite validate_token_sent, check_github_repo_exists_sent,
    check_rate_limit_sent.
  fold (issued w (snd (retry_request transport user_url None (headers_in w) w))).
  fold (issued w (snd (retry_request transport (repo_url repo) None
                         (headers_in w) w))).
  fold (issued w (snd (retry_request transport rate_limit_url None
                         (headers_in w) w))).
  destruct (retry_request_issued transport user_url None (headers_in w) w)
    as [k1 ->].
  destruct (retry_request_issued transport (repo_url repo) None (headers_in w) w)
    as [k2 ->].
  destruct (retry_request_issued transport rate_limit_url None (headers_in w) w)
    as [k3 ->].
  intros [Hin|[Hin|Hin]]; apply elem_of_replicate_inv in Hin; subst req;
    (split; [reflexivity|]); eexists; (split; [reflexivity|]);
    apply with_token_keys.
Qed.

Lemma callers_pass_only_three_headers_witness :
  params (mkRequest rate_limit_url None (headers_in (token_world "ghp_example")))
  = None.
Proof.
  refine (proj1 (callers_pass_only_three_headers
            (flaky 0 (mkResponse 200 None)) "octocat/Hello-World"
            (token_world "ghp_example")
            (mkRequest rate_limit_url None
                       (headers_in (token_world "ghp_example"))) _)).
  right. right.
  change (mkRequest rate_limit_url None (headers_in (token_world "ghp_example"))
          ∈ [mkRequest rate_limit_url None
               (headers_in (token_world "ghp_example"))]).
  apply list_elem_of_here.
Defined.

(** World [w2] differs from [w1] by at most [n] further log records. *)
Definition only_logged (n : nat) (w1 w2 : World) : Prop :=
  environ w2 = environ w1 /\ sent w2 = sent w1 /\ slept w2 = slept w1 /\
  stdout w2 = stdout w1 /\
  exists recs, logs w2 = (logs w1 ++ recs)%list /\ (length recs <= n)%nat.

(** X10: beyond what their single retried GET does, [validate_token],
    [check_github_repo_exists] and [check_rate_limit] touch nothing but the
    log: the environment, the requests sent, the time slept and the
    standard output are left as the GET left them, and at most one
    record (two for [check_github_repo_exists]) is logged. *)
Theorem callers_only_log_after_the_request
    (transport : nat -> Request -> Outcome) (repo : string) (w : World) :
  only_logged 1
    (snd (retry_request transport user_url None (headers_in w) w))
    (snd (validate_token transport w))
  /\ only_logged 2
       (snd (retry_request transport (repo_url repo) None (headers_in w) w))
       (snd (check_github_repo_exists transport repo w))
  /\ only_logged 1
       (snd (retry_request transport rate_limit_url None (headers_in w) w))
       (snd (check_rate_limit transport w)).
Proof.
  assert (H0 : forall w1, only_logged 0 w1 w1).
  { intros w1. repeat split. exists []. by rewrite app_nil_r. }
  assert (Hmono : forall n m w1 w2, (n <= m)%nat ->
            only_logged n w1 w2 -> only_logged m w1 w2).
  { intros n m w1 w2 Hnm (? & ? & ? & ? & recs & ? & ?).
    repeat split; try done. exists recs. split; [done|lia]. }
  assert (HS : forall n w1 w2 r,
            only_logged n w1 w2 -> only_logged (S n) w1 (logged r w2)).
  { intros n w1 w2 r (? & ? & ? & ? & recs & Hl & Hn).
    repeat split; try done. exists (recs ++ [r])%list.
    rewrite logged_logs, Hl, length_app, app_assoc. simpl. split; [done|lia]. }
  split; [|split].
  - unfold validate_token, bind, getenv, try_except.
    fold user_url. fold (headers_in w).
    destruct (retry_request transport user_url None (headers_in w) w)
      as [[r|x] w1]; simpl.
    + destruct (status_code r =? 200)%Z; simpl; eauto.
    + destruct (is_Exception x); simpl; eauto.
  - unfold check_github_repo_exists, bind, getenv, try_except.
    fold (repo_url repo). fold (headers_in w).
    destruct (retry_request transport (repo_url repo) None (headers_in w) w)
      as [[r|x] w1]; simpl.
    + destruct (status_code r =? 200)%Z; simpl; [eauto|].
      destruct (status_code r =? 403)%Z; simpl; [eauto|].
      destruct (status_code r =? 404)%Z; simpl; eauto.
    + destruct (is_Exception x); simpl; eauto.
  - unfold check_rate_limit, bind, getenv, try_except.
    fold rate_limit_url. fold (headers_in w).
    destruct (retry_request transport rate_limit_url None (headers_in w) w)
      as [[r|x] w1]; simpl.
    + destruct (status_code r =? 200)%Z; simpl; [|eauto].
      unfold response_json. destruct (json_body r) as [data|]; simpl; [|eauto].
      destruct data as [| | | | | |entries]; simpl; eauto.
      destruct (dict_get entries "resources" (JObj [])) as [| | | | | |res];
        simpl; eauto.
      destruct (dict_get res "core" (JObj [])) as [| | | | | |core];
        simpl; eauto.
    + destruct (is_Exception x); simpl; eauto.
Qed.
